(** * Feature-selection templates: a model of the notebook and its selectors

    The repository is one Jupyter notebook of four code cells.  Every cell
    loads the Pima-Indians table with pandas, slices it into the attribute
    matrix [X] and the label vector [Y], calls one scikit-learn estimator
    and prints attributes of the fitted object.

    The embedding has two layers.

    - [Notebook]: the four cells, line by line, in a state-and-error monad
      over the interpreter session (numpy's print precision, numpy's global
      random state, the requests made to the remote table) with the console
      output of a cell collected as it is written.  pandas and scikit-learn
      are an interface, [Library]: the notebook contains none of their
      code, only calls.
    - [Selectors]: the univariate and the recursive-elimination selectors,
      written from the specification's description of them, because their
      code belongs to scikit-learn and is not part of the repository.

    Cell values are float64 in the notebook; the carrier [num] is abstract
    here and is instantiated with exact rationals where a concrete run is
    evaluated. *)

From Stdlib Require Import ZArith QArith.
From stdpp Require Import base list sorting strings.


(** ** Exceptions and results *)

Inductive exn :=
  | IndexError
  | Raised (message : string).

Definition result (A : Type) : Type := exn + A.

Definition result_bind {A B} (f : A → result B) (r : result A) : result B :=
  match r with
  | inl e => inl e
  | inr a => f a
  end.

Fixpoint result_mapM {A B} (f : A → result B) (l : list A) : result (list B) :=
  match l with
  | [] => inr []
  | a :: l' =>
      match f a with
      | inl e => inl e
      | inr b =>
          match result_mapM f l' with
          | inl e => inl e
          | inr bs => inr (b :: bs)
          end
      end
  end.

(** ** Arrays *)

Section Arrays.
Context {num : Type}.

Definition vector := list num.
Definition matrix := list (list num).

(** [array[:,0:8]]: a slice never raises, it clips. *)
Definition slice_columns (lo hi : nat) (array : matrix) : matrix :=
  (λ row, take (hi - lo) (drop lo row)) <$> array.

(** [array[:,8]]: an index raises IndexError when a row has no such column.
    An ndarray is kept as the list of its rows, so the width of an array
    without rows is not recorded and indexing it returns the empty vector. *)
Definition index_column (j : nat) (array : matrix) : result vector :=
  result_mapM (λ row, match row !! j with
                      | Some v => inr v
                      | None => inl IndexError
                      end) array.

(** [features[0:5,:]] *)
Definition slice_rows (lo hi : nat) (m : matrix) : matrix :=
  take (hi - lo) (drop lo m).

(** [X.shape[1]], read off the first row (0 for an array without rows). *)
Definition ncols (X : matrix) : nat :=
  match X with
  | [] => 0
  | row :: _ => length row
  end.

Definition rectangular (m : nat) (X : matrix) : Prop :=
  Forall (λ row, length row = m) X.

End Arrays.

Arguments vector : clear implicits.
Arguments matrix : clear implicits.

(** ** Objects of the libraries *)

Record DataFrame (num : Type) := {
  columns : list string;
  values : matrix num;
}.
Arguments columns {num}.
Arguments values {num}.

(** The fitted objects, with the attributes and methods the notebook uses. *)
Record SelectKBestFit (num : Type) := {
  scores_ : vector num;
  transform : matrix num → result (matrix num);
}.
Arguments scores_ {num}.
Arguments transform {num}.

Record RFEFit := {
  n_features_ : Z;
  support_ : list bool;
  ranking_ : list Z;
}.

Record PCAFit (num : Type) := {
  explained_variance_ratio_ : vector num;
  components_ : matrix num;
  pca_transform : matrix num → result (matrix num);
}.
Arguments explained_variance_ratio_ {num}.
Arguments components_ {num}.
Arguments pca_transform {num}.

Record ExtraTreesFit (num : Type) := {
  feature_importances_ : vector num;
}.
Arguments feature_importances_ {num}.

(** A score function maps the attribute matrix and the labels to one score
    array; an estimator wrapped by RFE returns one weight per column of the
    matrix it is fitted on.  A fit may draw from the random state. *)
Definition score_func (num : Type) : Type :=
  matrix num → vector num → result (vector num).

Definition randomized (RandomState A : Type) : Type :=
  RandomState → result A * RandomState.

Definition estimator (num RandomState : Type) : Type :=
  matrix num → vector num → randomized RandomState (vector num).

(** pandas and scikit-learn, as far as the notebook calls them. *)
Class Library (num RandomState : Type) := {
  chi2 : score_func num;
  SelectKBest_fit :
    score_func num → Z → matrix num → vector num →
    randomized RandomState (SelectKBestFit num);
  LogisticRegression : estimator num RandomState;
  RFE_fit :
    estimator num RandomState → Z → matrix num → vector num →
    randomized RandomState RFEFit;
  PCA_fit : Z → matrix num → randomized RandomState (PCAFit num);
  ExtraTreesClassifier_fit :
    matrix num → vector num → randomized RandomState (ExtraTreesFit num);
}.

(** ** The interpreter session *)

(** What [print] is given. *)
Inductive pyval (num : Type) :=
  | PyStr (s : string)
  | PyInt (z : Z)
  | PyFloats (v : vector num)
  | PyFloats2 (m : matrix num)
  | PyBools (b : list bool)
  | PyInts (l : list Z).
Arguments PyStr {num}.
Arguments PyInt {num}.
Arguments PyFloats {num}.
Arguments PyFloats2 {num}.
Arguments PyBools {num}.
Arguments PyInts {num}.

(** One [print] call: its arguments and the precision numpy formats float
    arrays with at that moment. *)
Record printed (num : Type) := Printed {
  shown_at : nat;
  shown : list (pyval num);
}.
Arguments Printed {num}.
Arguments shown_at {num}.
Arguments shown {num}.

Record session (num RandomState : Type) := Session {
  precision : nat;
  random_state : RandomState;
  remote : string → list string → result (DataFrame num);
  requests : list string;
}.
Arguments Session {num RandomState}.
Arguments precision {num RandomState}.
Arguments random_state {num RandomState}.
Arguments remote {num RandomState}.
Arguments requests {num RandomState}.

(** numpy's default print precision. *)
Definition default_precision : nat := 8.

Record run (num RandomState A : Type) := Run {
  outcome : result A;
  stdout : list (printed num);
  final : session num RandomState;
}.
Arguments Run {num RandomState A}.
Arguments outcome {num RandomState A}.
Arguments stdout {num RandomState A}.
Arguments final {num RandomState A}.

Module Notebook.
Section Cells.
Context {num RandomState : Type} `{L : Library num RandomState}.

Definition py (A : Type) : Type := session num RandomState → run num RandomState A.

Definition ret {A} (a : A) : py A := λ s, Run (inr a) [] s.

Definition bind {A B} (m : py A) (f : A → py B) : py B := λ s,
  match m s with
  | Run (inl e) out s' => Run (inl e) out s'
  | Run (inr a) out s' =>
      match f a s' with
      | Run r out' s'' => Run r (out ++ out') s''
      end
  end.

Notation "x <- m ;; k" := (bind m (λ x, k))
  (at level 100, m at next level, right associativity).
Notation "m ;;; k" := (bind m (λ _, k))
  (at level 100, right associativity).

Definition lift {A} (r : result A) : py A := λ s, Run r [] s.

(** A call that may draw from numpy's global random state. *)
Definition call {A} (f : randomized RandomState A) : py A := λ s,
  let '(r, rs) := f (random_state s) in
  Run r [] (Session (precision s) rs (remote s) (requests s)).

(** [pandas.read_csv(url, names=names)] *)
Definition read_csv (url : string) (names : list string) : py (DataFrame num) := λ s,
  Run (remote s url names) []
      (Session (precision s) (random_state s) (remote s) (requests s ++ [url])).

(** [numpy.set_printoptions(precision=p)] *)
Definition set_printoptions (p : nat) : py () := λ s,
  Run (inr ()) [] (Session p (random_state s) (remote s) (requests s)).

(** [print(...)] *)
Definition print (args : list (pyval num)) : py () := λ s,
  Run (inr ()) [Printed (precision s) args] s.

Definition url : string :=
  "https://archive.ics.uci.edu/ml/machine-learning-databases/pima-indians-diabetes/pima-indians-diabetes.data".

Definition names : list string :=
  ["preg"; "plas"; "pres"; "skin"; "test"; "mass"; "pedi"; "age"; "class"]%string.

(** The names a cell binds when it loads the data. *)
Record loaded := Loaded {
  array : matrix num;
  X : matrix num;
  Y : vector num;
}.

(** The "load data" lines, repeated verbatim at the head of every cell. *)
Definition load_data : py loaded :=
  dataframe <- read_csv url names ;;
  let array := values dataframe in
  let X := slice_columns 0 8 array in
  Y <- lift (index_column 8 array) ;;
  ret (Loaded array X Y).

(** Cell 1: univariate selection. *)
Definition univariate_cell : py (loaded * SelectKBestFit num * matrix num) :=
  d <- load_data ;;
  fit <- call (SelectKBest_fit chi2 4 (X d) (Y d)) ;;
  set_printoptions 3 ;;;
  print [PyFloats (scores_ fit)] ;;;
  features <- lift (transform fit (X d)) ;;
  print [PyFloats2 (slice_rows 0 5 features)] ;;;
  ret (d, fit, features).

(** Cell 2: recursive feature elimination. *)
Definition rfe_cell : py (loaded * RFEFit) :=
  d <- load_data ;;
  let model := LogisticRegression in
  fit <- call (RFE_fit model 3 (X d) (Y d)) ;;
  print [PyStr "Num Features: %d"; PyInt (n_features_ fit)] ;;;
  print [PyStr "Selected Features: %s"; PyBools (support_ fit)] ;;;
  print [PyStr "Feature Ranking: %s"; PyInts (ranking_ fit)] ;;;
  ret (d, fit).

(** Cell 3: principal component analysis. *)
Definition pca_cell : py (loaded * PCAFit num) :=
  d <- load_data ;;
  fit <- call (PCA_fit 3 (X d)) ;;
  print [PyStr "Explained Variance: %s"; PyFloats (explained_variance_ratio_ fit)] ;;;
  print [PyFloats2 (components_ fit)] ;;;
  ret (d, fit).

(** Cell 4: feature importance. *)
Definition importance_cell : py (loaded * ExtraTreesFit num) :=
  d <- load_data ;;
  model <- call (ExtraTreesClassifier_fit (X d) (Y d)) ;;
  print [PyFloats (feature_importances_ model)] ;;;
  ret (d, model).

Definition void {A} (m : py A) : py () := x <- m ;; ret ().

(** The cells in document order. *)
Definition notebook : list (py ()) :=
  [void univariate_cell; void rfe_cell; void pca_cell; void importance_cell].

(** Running cells one after the other in one session; the first exception
    stops the run. *)
Fixpoint run_cells (cells : list (py ())) (s : session num RandomState)
  : list (run num RandomState ()) :=
  match cells with
  | [] => []
  | c :: cs =>
      let r := c s in
      r :: match outcome r with
           | inl _ => []
           | inr _ => run_cells cs (final r)
           end
  end.

Definition run_all : session num RandomState → list (run num RandomState ()) :=
  run_cells notebook.

(** The session a run ends in. *)
Definition session_after (runs : list (run num RandomState ()))
    (s : session num RandomState) : session num RandomState :=
  match last runs with
  | Some r => final r
  | None => s
  end.

(** The names a cell binds at loading hold the table the session serves and
    its two slices. *)
Definition bound_to_table (s : session num RandomState) (d : loaded) : Prop :=
  ∃ df, remote s url names = inr df ∧
        array d = values df ∧
        X d = slice_columns 0 8 (values df) ∧
        index_column 8 (values df) = inr (Y d).

(** A cell that starts by requesting the table: it makes exactly one request
    and leaves the remote table as it is, and when the request fails nothing
    else has happened. *)
Definition loads_first {A} (c : py A) : Prop :=
  ∀ s, requests (final (c s)) = requests s ++ [url] ∧
       remote (final (c s)) = remote s ∧
       ∀ e, remote s url names = inl e →
            outcome (c s) = inl e ∧ stdout (c s) = [] ∧
            random_state (final (c s)) = random_state s.

(** A cell that prints at the precision it finds and leaves it as it is. *)
Definition keeps_precision (c : py ()) : Prop :=
  ∀ s, Forall (λ p, shown_at p = precision s) (stdout (c s)) ∧
       precision (final (c s)) = precision s.

(** [X] and [Y] put side by side again: every record followed by its label. *)
Definition recombine (X : matrix num) (Y : vector num) : matrix num :=
  zip_with (λ (row : list num) (y : num), row ++ [y]) X Y.

(** The exception of the load lines: the one [read_csv] raises, or else the
    one the label index raises. *)
Definition loading_raises (s : session num RandomState) (e : exn) : Prop :=
  remote s url names = inl e ∨
  ∃ df, remote s url names = inr df ∧ index_column 8 (values df) = inl e.

(** Cells taken from the notebook: any of the four, in any order, any number
    of times. *)
Definition drawn_from_notebook (cells : list (py ())) : Prop :=
  Forall (λ c, c ∈ notebook) cells.

(** Cells executed by hand, one after the other in one session.  Unlike a
    run of the whole notebook, execution by hand goes on after a cell that
    ended with an exception: the next cell starts in the session that cell
    left.  (The execution counts stored with the cells, 1, 9, 10 and 6, are
    those of such a session.) *)
Fixpoint execute_cells (cells : list (py ())) (s : session num RandomState)
  : list (run num RandomState ()) :=
  match cells with
  | [] => []
  | c :: cs =>
      let r := c s in
      r :: execute_cells cs (final r)
  end.

End Cells.
End Notebook.

(** ** The selectors the specification describes

    SelectKBest and RFE are scikit-learn classes; their code is not in the
    repository.  The definitions of this module follow the specification's
    description of the two selectors (component design, section 4.1, and the
    glossary).  They are defined for every requested count; the statements
    proved about them concern counts between 1 and the attribute count, and
    what the library does outside that range is not part of this model. *)

Module Selectors.
Section Columns.
Context {num : Type}.

(** Attribute [j] of every record. *)
Definition column (j : nat) (X : matrix num) : vector num :=
  omap (λ row : list num, row !! j) X.

Definition attribute_columns (X : matrix num) : list (vector num) :=
  (λ j, column j X) <$> seq 0 (ncols X).

(** The matrix reduced to the attributes at [positions], in that order. *)
Definition take_columns (positions : list nat) (X : matrix num) : matrix num :=
  (λ row : list num, omap (λ j, row !! j) positions) <$> X.

End Columns.

Section Univariate.
Context {num : Type} (le : relation num) `{!RelDecision le}.

(** Modelled from the spec: scikit-learn's score functions are missing from
    src/.  "Score: a numeric measure of an attribute's individual relevance
    to the label"; the selector's output is a "score per attribute".  The
    statistic itself (chi-squared in the notebook) stays a parameter; it may
    raise. *)
Definition univariate (statistic : vector num → vector num → result num)
  : score_func num :=
  λ X Y, result_mapM (λ col, statistic col Y) (attribute_columns X).

(** The order of attributes by score. *)
Definition by_score : relation (nat * num) := λ a b, le a.2 b.2.

#[global] Instance by_score_dec : RelDecision by_score :=
  λ a b, decide (le a.2 b.2).

(** Modelled from the spec (SelectKBest, missing from src/): the attribute
    positions paired with their scores, lowest score first. *)
Definition ranked (scores : vector num) : list (nat * num) :=
  merge_sort by_score (zip (seq 0 (length scores)) scores).

(** Modelled from the spec (SelectKBest, missing from src/): the positions of
    "the k highest-scoring columns". *)
Definition k_best (k : nat) (scores : vector num) : list nat :=
  (drop (length scores - k) (ranked scores)).*1.

(** Modelled from the spec (SelectKBest, missing from src/): the same
    positions in attribute order, "an explicit reduced set of attribute
    positions". *)
Definition selected (k : nat) (scores : vector num) : list nat :=
  filter (λ j, j ∈ k_best k scores) (seq 0 (length scores)).

(** Modelled from the spec: scikit-learn's SelectKBest is missing from src/.
    Input "number of attributes to keep (k), a scoring function"; output
    "score per attribute; matrix reduced to the k highest-scoring columns".
    The selector makes no check of its own on the attribute values: a scoring
    failure is passed on as it is. *)
Definition SelectKBest (f : score_func num) (k : Z) (X : matrix num) (Y : vector num)
  : result (SelectKBestFit num) :=
  result_bind
    (λ scores,
       inr {| scores_ := scores;
              transform := λ X', inr (take_columns (selected (Z.to_nat k) scores) X') |})
    (f X Y).

End Univariate.

Section Elimination.
Context {num RandomState : Type} (le : relation num) `{!RelDecision le}.

(** The retained positions of a mask. *)
Definition remaining (support : list bool) : list nat :=
  filter (λ j, support !! j = Some true) (seq 0 (length support)).

(** Modelled from the spec (RFE, missing from src/): "the weakest", the entry
    of least weight, and the first one among equals. *)
Fixpoint weakest (l : list (nat * num)) : option (nat * num) :=
  match l with
  | [] => None
  | p :: l' =>
      match weakest l' with
      | None => Some p
      | Some q => if decide (le p.2 q.2) then Some p else Some q
      end
  end.

Record elimination := Elimination {
  support : list bool;
  ranking : list Z;
}.

(** Modelled from the spec (RFE, missing from src/): discarding attribute
    [j].  It leaves the mask, and every attribute that is out by now moves one
    rank up, so that "1 = retained, increasing = eliminated earlier". *)
Definition discard (j : nat) (st : elimination) : elimination :=
  let support' := <[j := false]> (support st) in
  Elimination support'
    (zip_with (λ (kept : bool) (r : Z), if kept then r else (r + 1)%Z)
              support' (ranking st)).

(** Modelled from the spec (RFE, missing from src/): one round, "fitting the
    wrapped model, scoring attribute contribution, discarding the weakest".
    The model is fitted on the remaining attributes only. *)
Definition elimination_round (model : estimator num RandomState)
    (X : matrix num) (Y : vector num) (st : elimination)
  : randomized RandomState elimination :=
  λ rs,
    let features := remaining (support st) in
    let '(r, rs') := model (take_columns features X) Y rs in
    match r with
    | inl e => (inl e, rs')
    | inr weights =>
        match weakest (zip features weights) with
        | None => (inl (Raised "the wrapped model returned no weights"), rs')
        | Some (j, _) => (inr (discard j st), rs')
        end
    end.

(** Modelled from the spec (RFE, missing from src/): [rounds] rounds of
    elimination, stopping at the first exception. *)
Fixpoint eliminate (rounds : nat) (model : estimator num RandomState)
    (X : matrix num) (Y : vector num) (st : elimination)
  : randomized RandomState elimination :=
  λ rs,
    match rounds with
    | O => (inr st, rs)
    | S rounds' =>
        match elimination_round model X Y st rs with
        | (inl e, rs') => (inl e, rs')
        | (inr st', rs') => eliminate rounds' model X Y st' rs'
        end
    end.

Definition count_true (mask : list bool) : nat :=
  length (filter (λ b, b = true) mask).

(** Rank 1 marks the retained attributes, and only them. *)
Definition rank_one_iff_retained (support : list bool) (ranking : list Z) : Prop :=
  Forall2 (λ (kept : bool) (r : Z), if kept then r = 1%Z else (1 < r)%Z)
          support ranking.

(** A wrapped model that never raises and weighs every column it is given. *)
Definition one_weight_per_column (model : estimator num RandomState) : Prop :=
  ∀ X Y rs, ∃ weights rs',
    model X Y rs = (inr weights, rs') ∧ length weights = ncols X.

(** Modelled from the spec: scikit-learn's RFE is missing from src/.  Input
    "a wrapped predictive model, target attribute count (n)"; output
    "boolean mask of length = attribute count marking the n retained
    attributes; integer rank per attribute (1 = retained, increasing =
    eliminated earlier)"; it "operates by repeatedly fitting the wrapped
    model, scoring attribute contribution, discarding the weakest, until n
    remain".  All attributes start retained with rank 1; one attribute goes
    per round, so the loop makes (attribute count - n) rounds. *)
Definition RFE (model : estimator num RandomState) (n : Z)
    (X : matrix num) (Y : vector num) : randomized RandomState RFEFit :=
  λ rs,
    let m := ncols X in
    let start := Elimination (replicate m true) (replicate m 1%Z) in
    match eliminate (m - Z.to_nat n) model X Y start rs with
    | (inl e, rs') => (inl e, rs')
    | (inr st, rs') =>
        (inr {| n_features_ := Z.of_nat (count_true (support st));
                support_ := support st;
                ranking_ := ranking st |}, rs')
    end.

End Elimination.
End Selectors.

(** ** A concrete session

    The first five records of the table and small exact-arithmetic stand-ins
    for the library routines, to evaluate the cells on.  The statements
    proved for every [Library] do not depend on them. *)

Module Sample.

#[global] Instance Qle_dec : RelDecision Qle.
Proof.
intros x y. destruct (Qlt_le_dec y x) as [Hlt | Hle].
- right. apply Qlt_not_le, Hlt.
- left. exact Hle.
Defined.

#[global] Instance Qle_total : Total Qle.
Proof.
intros x y. destruct (Qlt_le_dec y x) as [Hlt | Hle].
- right. apply Qlt_le_weak, Hlt.
- left. exact Hle.
Qed.

#[global] Instance Qle_trans : Transitive Qle.
Proof. intros x y z. apply Qle_trans. Qed.

Definition Qsum (l : list Q) : Q := Qred (foldr Qplus 0%Q l).

Definition fraction (a b : nat) : Q := (Z.of_nat a # Pos.of_nat b)%Q.

Definition distinct (l : list Q) : list Q :=
  foldr (λ x acc, if existsb (Qeq_bool x) acc then acc else x :: acc) [] l.

(** Pearson's chi-squared statistic of one non-negative attribute against the
    class labels. *)
Definition pearson_chi2 (col Y : vector Q) : result Q :=
  if existsb (λ x, negb (Qle_bool 0 x)) col
  then inl (Raised "Input X must be non-negative.")
  else
    let total := Qsum col in
    inr (Qsum ((λ c,
                  let members := filter (λ p : Q * Q, Qeq_bool p.2 c = true) (zip col Y) in
                  let observed := Qsum members.*1 in
                  let expected := (fraction (length members) (length col) * total)%Q in
                  ((observed - expected) * (observed - expected) / expected)%Q)
               <$> distinct Y)).

Definition mean (col : vector Q) : Q :=
  (Qsum col * fraction 1 (length col))%Q.

Definition variance (col : vector Q) : Q :=
  let mu := mean col in
  (Qsum ((λ x, (x - mu) * (x - mu))%Q <$> col) * fraction 1 (length col - 1))%Q.

Definition unit_vector (m j : nat) : vector Q :=
  (λ i, if decide (i = j) then 1%Q else 0%Q) <$> seq 0 m.

(** A projection on the attribute axes: the [c] attributes of largest
    variance, each with its share of the total variance. *)
Definition axis_projection (c : Z) (X : matrix Q) : PCAFit Q :=
  let vars := variance <$> Selectors.attribute_columns X in
  let total := Qsum vars in
  let top := take (Z.to_nat c) (reverse (Selectors.ranked Qle vars)) in
  {| explained_variance_ratio_ := (λ p : nat * Q, Qred (p.2 / total)) <$> top;
     components_ := (λ p : nat * Q, unit_vector (ncols X) p.1) <$> top;
     pca_transform := λ X',
       inr (Selectors.take_columns top.*1
              ((λ row, zip_with (λ x mu, Qred (x - mu)) row
                         (mean <$> Selectors.attribute_columns X)) <$> X')) |}.

(** A linear congruential generator as the random source. *)
Definition next_random (seed : N) : N :=
  ((seed * 1103515245 + 12345) mod 2147483648)%N.

Fixpoint draws (n : nat) (seed : N) : list N * N :=
  match n with
  | O => ([], seed)
  | S n' =>
      let seed' := next_random seed in
      let '(l, seed'') := draws n' seed' in
      ((seed' mod 100 + 1)%N :: l, seed'')
  end.

(** Importance shares drawn from the random source. *)
Definition random_shares (X : matrix Q) (seed : N) : ExtraTreesFit Q * N :=
  let '(ws, seed') := draws (ncols X) seed in
  let total := foldr N.add 0%N ws in
  ({| feature_importances_ :=
        (λ w, Qred (Z.of_N w # Pos.of_nat (N.to_nat total))) <$> ws |}, seed').

(** The weight of an attribute for the wrapped model: the distance between
    its class means, squared. *)
Definition class_separation (Y : vector Q) (col : vector Q) : Q :=
  let of_class c := (filter (λ p : Q * Q, Qeq_bool p.2 c = true) (zip col Y)).*1 in
  let d := (mean (of_class 1%Q) - mean (of_class 0%Q))%Q in
  Qred (d * d).

#[global] Instance library : Library Q N := {|
  chi2 := Selectors.univariate pearson_chi2;
  SelectKBest_fit := λ f k X Y seed, (Selectors.SelectKBest Qle f k X Y, seed);
  LogisticRegression := λ X Y seed,
    (inr (class_separation Y <$> Selectors.attribute_columns X), seed);
  RFE_fit := Selectors.RFE Qle;
  PCA_fit := λ c X seed, (inr (axis_projection c X), seed);
  ExtraTreesClassifier_fit := λ X Y seed,
    let '(fit, seed') := random_shares X seed in (inr fit, seed');
|}.

(** The first five records of the table; the output stored with the first
    cell shows their columns plas, test, mass and age. *)
Definition pima_head : matrix Q :=
  [ [6; 148; 72; 35; 0; 336 # 10; 627 # 1000; 50; 1];
    [1; 85; 66; 29; 0; 266 # 10; 351 # 1000; 31; 0];
    [8; 183; 64; 0; 0; 233 # 10; 672 # 1000; 32; 1];
    [1; 89; 66; 23; 94; 281 # 10; 167 # 1000; 21; 0];
    [0; 137; 40; 35; 168; 431 # 10; 2288 # 1000; 33; 1] ]%Q.

Definition serve (table : matrix Q) : string → list string → result (DataFrame Q) :=
  λ url names,
    if decide (url = Notebook.url)
    then inr {| columns := names; values := table |}
    else inl (Raised "HTTP Error 404: Not Found").

(** A fresh interpreter: default precision, seed 0, nothing fetched yet. *)
Definition fresh (table : matrix Q) : session Q N :=
  Session default_precision 0%N (serve table) [].

(** The same table with every label flipped. *)
Definition relabelled (table : matrix Q) : matrix Q :=
  (λ row, take 8 row ++ ((λ y, Qred (1 - y)) <$> drop 8 row)) <$> table.

(** A session that has run other cells before: precision 3, one request. *)
Definition used (table : matrix Q) : session Q N :=
  Session 3 0%N (serve table) [Notebook.url].

Definition sample_X : matrix Q := slice_columns 0 8 pima_head.
Definition sample_Y : vector Q := [1; 0; 1; 0; 1]%Q.

End Sample.

(** A library like the sample one, except that the fitted univariate selector
    refuses to transform. *)
Module Faults.

Definition refuse_transform (r : result (SelectKBestFit Q)) : result (SelectKBestFit Q) :=
  match r with
  | inl e => inl e
  | inr fit =>
      inr {| scores_ := scores_ fit;
             transform := λ _, inl (Raised "X has a different shape than during fitting.") |}
  end.

Definition library_refusing_transform : Library Q N := {|
  chi2 := chi2 (Library := Sample.library);
  SelectKBest_fit := λ f k X Y seed,
    let '(r, seed') := SelectKBest_fit (Library := Sample.library) f k X Y seed in
    (refuse_transform r, seed');
  LogisticRegression := LogisticRegression (Library := Sample.library);
  RFE_fit := RFE_fit (Library := Sample.library);
  PCA_fit := PCA_fit (Library := Sample.library);
  ExtraTreesClassifier_fit := ExtraTreesClassifier_fit (Library := Sample.library);
|}.

End Faults.

(** ** The cells, one effect at a time *)

Section CellFacts.
Import Notebook.
Context {num RandomState : Type} `{L : Library num RandomState}.
Implicit Types s : session num RandomState.

Ltac step_cell :=
  unfold univariate_cell, rfe_cell, pca_cell, importance_cell, load_data, void,
    bind, read_csv, lift, call, ret, set_printoptions, print in *;
  simpl in *.

Ltac split_cell := repeat (case_match; simpl in *; simplify_eq); simpl in *.

(** What loading leaves behind: one more request, nothing printed, nothing
    else touched. *)
Lemma load_data_run s :
  load_data s =
  Run (result_bind
         (λ df, result_bind
                  (λ labels, inr (Loaded (values df) (slice_columns 0 8 (values df)) labels))
                  (index_column 8 (values df)))
         (remote s url names))
      []
      (Session (precision s) (random_state s) (remote s) (requests s ++ [url])).
Proof.
step_cell. destruct (remote s url names) as [e | df]; simpl; [reflexivity |].
destruct (index_column 8 (values df)); reflexivity.
Qed.

Lemma load_data_ok s d :
  outcome (load_data s) = inr d →
  ∃ df, remote s url names = inr df ∧ array d = values df ∧
        X d = slice_columns 0 8 (array d) ∧ index_column 8 (array d) = inr (Y d).
Proof.
rewrite load_data_run. simpl.
destruct (remote s url names) as [e | df]; simpl; [discriminate |].
destruct (index_column 8 (values df)) as [e | labels] eqn:E; simpl; [discriminate |].
intros [= <-]. exists df. simpl. auto.
Qed.

(** Every cell asks the remote source for the table, once, whatever happens
    afterwards. *)
Lemma univariate_cell_requests s :
  requests (final (univariate_cell s)) = requests s ++ [url].
Proof. step_cell. split_cell; reflexivity. Qed.

Lemma rfe_cell_requests s :
  requests (final (rfe_cell s)) = requests s ++ [url].
Proof. step_cell. split_cell; reflexivity. Qed.

Lemma pca_cell_requests s :
  requests (final (pca_cell s)) = requests s ++ [url].
Proof. step_cell. split_cell; reflexivity. Qed.

Lemma importance_cell_requests s :
  requests (final (importance_cell s)) = requests s ++ [url].
Proof. step_cell. split_cell; reflexivity. Qed.

Lemma univariate_cell_loads_first : loads_first univariate_cell.
Proof.
intros s. split; [apply univariate_cell_requests |].
step_cell. split; [split_cell; reflexivity |]. by intros e ->.
Qed.

Lemma rfe_cell_loads_first : loads_first rfe_cell.
Proof.
intros s. split; [apply rfe_cell_requests |].
step_cell. split; [split_cell; reflexivity |]. by intros e ->.
Qed.

Lemma pca_cell_loads_first : loads_first pca_cell.
Proof.
intros s. split; [apply pca_cell_requests |].
step_cell. split; [split_cell; reflexivity |]. by intros e ->.
Qed.

Lemma importance_cell_loads_first : loads_first importance_cell.
Proof.
intros s. split; [apply importance_cell_requests |].
step_cell. split; [split_cell; reflexivity |]. by intros e ->.
Qed.

(** A fit that raises ends the cell before anything is printed. *)
Lemma univariate_cell_fit_raises s d e rs :
  outcome (load_data s) = inr d →
  SelectKBest_fit chi2 4 (X d) (Y d) (random_state s) = (inl e, rs) →
  outcome (univariate_cell s) = inl e ∧ stdout (univariate_cell s) = [].
Proof.
rewrite load_data_run. step_cell.
destruct (remote s url names) as [e' | df]; simpl; [discriminate |].
destruct (index_column 8 (values df)) as [e' | labels]; simpl; [discriminate |].
intros [= <-]. simpl. by intros ->.
Qed.

Lemma rfe_cell_fit_raises s d e rs :
  outcome (load_data s) = inr d →
  RFE_fit LogisticRegression 3 (X d) (Y d) (random_state s) = (inl e, rs) →
  outcome (rfe_cell s) = inl e ∧ stdout (rfe_cell s) = [].
Proof.
rewrite load_data_run. step_cell.
destruct (remote s url names) as [e' | df]; simpl; [discriminate |].
destruct (index_column 8 (values df)) as [e' | labels]; simpl; [discriminate |].
intros [= <-]. simpl. by intros ->.
Qed.

Lemma pca_cell_fit_raises s d e rs :
  outcome (load_data s) = inr d →
  PCA_fit 3 (X d) (random_state s) = (inl e, rs) →
  outcome (pca_cell s) = inl e ∧ stdout (pca_cell s) = [].
Proof.
rewrite load_data_run. step_cell.
destruct (remote s url names) as [e' | df]; simpl; [discriminate |].
destruct (index_column 8 (values df)) as [e' | labels]; simpl; [discriminate |].
intros [= <-]. simpl. by intros ->.
Qed.

(** The first exception ends a run: no later cell is executed. *)
Lemma run_cells_stops (c : py ()) (cells : list (py ())) s e :
  outcome (c s) = inl e → run_cells (c :: cells) s = [c s].
Proof. simpl. by intros ->. Qed.

Lemma void_run {A} (c : py A) s :
  final (void c s) = final (c s) ∧ stdout (void c s) = stdout (c s) ∧
  (∀ e, outcome (void c s) = inl e ↔ outcome (c s) = inl e).
Proof.
unfold void, bind, ret. destruct (c s) as [[e | a] out s']; simpl.
- repeat split; intros; congruence.
- rewrite app_nil_r. repeat split; intros; congruence.
Qed.

(** The reports. *)
Lemma univariate_cell_report s d fit features :
  outcome (univariate_cell s) = inr (d, fit, features) →
  transform fit (X d) = inr features ∧
  stdout (univariate_cell s) =
    [Printed 3 [PyFloats (scores_ fit)];
     Printed 3 [PyFloats2 (slice_rows 0 5 features)]].
Proof. step_cell. split_cell; intros; simplify_eq; auto. Qed.

Lemma rfe_cell_report s d fit :
  outcome (rfe_cell s) = inr (d, fit) →
  stdout (rfe_cell s) =
    [Printed (precision s) [PyStr "Num Features: %d"; PyInt (n_features_ fit)];
     Printed (precision s) [PyStr "Selected Features: %s"; PyBools (support_ fit)];
     Printed (precision s) [PyStr "Feature Ranking: %s"; PyInts (ranking_ fit)]].
Proof. step_cell. split_cell; intros; simplify_eq; auto. Qed.

Lemma pca_cell_report s d fit :
  outcome (pca_cell s) = inr (d, fit) →
  stdout (pca_cell s) =
    [Printed (precision s)
       [PyStr "Explained Variance: %s"; PyFloats (explained_variance_ratio_ fit)];
     Printed (precision s) [PyFloats2 (components_ fit)]].
Proof. step_cell. split_cell; intros; simplify_eq; auto. Qed.

Lemma importance_cell_report s d model :
  outcome (importance_cell s) = inr (d, model) →
  stdout (importance_cell s) =
    [Printed (precision s) [PyFloats (feature_importances_ model)]].
Proof. step_cell. split_cell; intros; simplify_eq; auto. Qed.

(** The print precision: set by the univariate cell, left alone by the
    others. *)
Lemma univariate_cell_precision s :
  Forall (λ p, shown_at p = 3) (stdout (univariate_cell s)) ∧
  (∀ v, outcome (univariate_cell s) = inr v → precision (final (univariate_cell s)) = 3).
Proof. step_cell. split_cell; split; intros; simplify_eq; repeat constructor. Qed.

Lemma rfe_cell_precision s :
  Forall (λ p, shown_at p = precision s) (stdout (rfe_cell s)) ∧
  precision (final (rfe_cell s)) = precision s.
Proof. step_cell. split_cell; split; repeat constructor. Qed.

Lemma pca_cell_precision s :
  Forall (λ p, shown_at p = precision s) (stdout (pca_cell s)) ∧
  precision (final (pca_cell s)) = precision s.
Proof. step_cell. split_cell; split; repeat constructor. Qed.

Lemma importance_cell_precision s :
  Forall (λ p, shown_at p = precision s) (stdout (importance_cell s)) ∧
  precision (final (importance_cell s)) = precision s.
Proof. step_cell. split_cell; split; repeat constructor. Qed.

Lemma univariate_cell_bound s d fit features :
  outcome (univariate_cell s) = inr (d, fit, features) → bound_to_table s d.
Proof.
unfold bound_to_table. step_cell. split_cell; intros; simplify_eq.
eexists; simpl; eauto.
Qed.

Lemma rfe_cell_bound s d fit :
  outcome (rfe_cell s) = inr (d, fit) → bound_to_table s d.
Proof.
unfold bound_to_table. step_cell. split_cell; intros; simplify_eq.
eexists; simpl; eauto.
Qed.

Lemma pca_cell_bound s d fit :
  outcome (pca_cell s) = inr (d, fit) → bound_to_table s d.
Proof.
unfold bound_to_table. step_cell. split_cell; intros; simplify_eq.
eexists; simpl; eauto.
Qed.

Lemma importance_cell_bound s d model :
  outcome (importance_cell s) = inr (d, model) → bound_to_table s d.
Proof.
unfold bound_to_table. step_cell. split_cell; intros; simplify_eq.
eexists; simpl; eauto.
Qed.

(** Runs of several cells. *)
Lemma run_cells_requests (cells : list (py ())) :
  Forall (λ c, ∀ s, requests (final (c s)) = requests s ++ [url]) cells →
  ∀ s, requests (session_after (run_cells cells s) s) =
       requests s ++ replicate (length (run_cells cells s)) url.
Proof.
unfold session_after.
induction 1 as [| c cells Hc _ IH]; intros s; simpl.
- by rewrite app_nil_r.
- specialize (IH (final (c s))). specialize (Hc s).
  destruct (outcome (c s)); simpl; [by rewrite Hc |].
  destruct (run_cells cells (final (c s))) as [| r rs] eqn:E; simpl in *.
  + by rewrite Hc.
  + rewrite last_cons in IH |- *.
    destruct (last rs) as [r' |]; rewrite IH, Hc, <- app_assoc; done.
Qed.

Lemma run_cells_precision (cells : list (py ())) :
  Forall keeps_precision cells →
  ∀ s, Forall (λ r, Forall (λ p, shown_at p = precision s) (stdout r))
              (run_cells cells s).
Proof.
induction 1 as [| c cells Hc _ IH]; intros s; simpl; constructor.
- apply Hc.
- destruct (outcome (c s)); [constructor |].
  destruct (Hc s) as [_ <-]. apply IH.
Qed.

Lemma notebook_requests :
  Forall (λ c : py (), ∀ s, requests (final (c s)) = requests s ++ [url]) notebook.
Proof.
unfold notebook. repeat constructor; intros s;
  match goal with |- context [void ?c s] => destruct (void_run c s) as [-> _] end.
- apply univariate_cell_requests.
- apply rfe_cell_requests.
- apply pca_cell_requests.
- apply importance_cell_requests.
Qed.

Lemma void_keeps_precision {A} (c : py A) :
  (∀ s, Forall (λ p, shown_at p = precision s) (stdout (c s)) ∧
        precision (final (c s)) = precision s) →
  keeps_precision (void c).
Proof.
intros Hc s. destruct (void_run c s) as (-> & -> & _). apply Hc.
Qed.

(** ** Claims about the notebook *)

(** C7, amended (life cycle of the dataset). Every selector cell starts by
    requesting the table from the remote source, once, whatever happens
    afterwards, so a run that executes the four cells makes four requests;
    when a cell ends, the names it bound at loading hold the table that was
    served and its two slices; the print precision is interpreter-wide state
    that the univariate cell sets to 3 and the later cells read when they
    print. *)
Theorem dataset_requested_by_every_cell :
  (loads_first univariate_cell ∧ loads_first rfe_cell ∧
   loads_first pca_cell ∧ loads_first importance_cell) ∧
  (∀ s, requests (session_after (run_all s) s) =
        requests s ++ replicate (length (run_all s)) url) ∧
  (∀ s, length (run_all s) = 4 →
        requests (session_after (run_all s) s) = requests s ++ [url; url; url; url]) ∧
  (∀ s,
     (∀ d fit features,
        outcome (univariate_cell s) = inr (d, fit, features) → bound_to_table s d) ∧
     (∀ d fit, outcome (rfe_cell s) = inr (d, fit) → bound_to_table s d) ∧
     (∀ d fit, outcome (pca_cell s) = inr (d, fit) → bound_to_table s d) ∧
     (∀ d model, outcome (importance_cell s) = inr (d, model) → bound_to_table s d)) ∧
  (∀ s,
     (∀ v, outcome (univariate_cell s) = inr v →
           precision (final (univariate_cell s)) = 3) ∧
     Forall (λ p, shown_at p = precision s) (stdout (rfe_cell s)) ∧
     Forall (λ p, shown_at p = precision s) (stdout (pca_cell s)) ∧
     Forall (λ p, shown_at p = precision s) (stdout (importance_cell s))).
Proof.
split; [| split; [| split; [| split]]].
- auto using univariate_cell_loads_first, rfe_cell_loads_first,
    pca_cell_loads_first, importance_cell_loads_first.
- apply run_cells_requests, notebook_requests.
- intros s Hlen. unfold run_all in *.
  rewrite (run_cells_requests _ notebook_requests), Hlen. reflexivity.
- intros s. repeat split; intros.
  + by eapply univariate_cell_bound.
  + by eapply rfe_cell_bound.
  + by eapply pca_cell_bound.
  + by eapply importance_cell_bound.
- intros s. repeat split.
  + apply univariate_cell_precision.
  + apply rfe_cell_precision.
  + apply pca_cell_precision.
  + apply importance_cell_precision.
Qed.

(** C8, amended (console reports). In a run of the notebook every report is
    printed at precision 3: the univariate cell sets it before its first
    print and the later cells inherit it.  The univariate report is the score
    array and the first 5 rows of the transformed matrix; the
    recursive-elimination report is the count, the mask and the ranking; the
    projection report is the explained-variance ratios and the whole
    component matrix, without any transformed row; the ensemble report is the
    importance array. *)
Theorem reports_of_the_cells s :
  Forall (λ r, Forall (λ p, shown_at p = 3) (stdout r)) (run_all s) ∧
  (∀ d fit features,
     outcome (univariate_cell s) = inr (d, fit, features) →
     transform fit (X d) = inr features ∧
     stdout (univariate_cell s) =
       [Printed 3 [PyFloats (scores_ fit)];
        Printed 3 [PyFloats2 (slice_rows 0 5 features)]]) ∧
  (∀ d fit,
     outcome (rfe_cell s) = inr (d, fit) →
     stdout (rfe_cell s) =
       [Printed (precision s) [PyStr "Num Features: %d"; PyInt (n_features_ fit)];
        Printed (precision s) [PyStr "Selected Features: %s"; PyBools (support_ fit)];
        Printed (precision s) [PyStr "Feature Ranking: %s"; PyInts (ranking_ fit)]]) ∧
  (∀ d fit,
     outcome (pca_cell s) = inr (d, fit) →
     stdout (pca_cell s) =
       [Printed (precision s)
          [PyStr "Explained Variance: %s"; PyFloats (explained_variance_ratio_ fit)];
        Printed (precision s) [PyFloats2 (components_ fit)]]) ∧
  (∀ d model,
     outcome (importance_cell s) = inr (d, model) →
     stdout (importance_cell s) =
       [Printed (precision s) [PyFloats (feature_importances_ model)]]).
Proof.
split; [| split; [| split; [| split]]]; intros.
2: by eapply univariate_cell_report.
2: by eapply rfe_cell_report.
2: by eapply pca_cell_report.
2: by eapply importance_cell_report.
unfold run_all, notebook. simpl.
pose proof (void_run univariate_cell s) as (Hfinal & Hout & Herr).
destruct (univariate_cell_precision s) as [Hprints Hset].
constructor; [by rewrite Hout |].
assert (Hthree : ∀ u, outcome (void univariate_cell s) = inr u →
                      precision (final (void univariate_cell s)) = 3).
{ intros u Hok. rewrite Hfinal.
  destruct (outcome (univariate_cell s)) as [e | v] eqn:Ev.
  - pose proof (proj2 (Herr e) eq_refl). congruence.
  - by apply (Hset v). }
destruct (outcome (void univariate_cell s)) as [e | u]; [constructor |].
specialize (Hthree u eq_refl).
rewrite <- Hthree.
apply (run_cells_precision [void rfe_cell; void pca_cell; void importance_cell]).
constructor; [apply void_keeps_precision, rfe_cell_precision |].
constructor; [apply void_keeps_precision, pca_cell_precision |].
constructor; [apply void_keeps_precision, importance_cell_precision | constructor].
Qed.

(** C10 (the projection ignores the labels). For two sessions that start
    from the same random state and serve tables with the same attribute
    columns 0..7, each with a label column of its own, the projection cell
    fits the same object, hence the same components and the same
    explained-variance ratios, or raises the same exception. *)
Theorem projection_ignores_labels s1 s2 df1 df2 labels1 labels2 :
  random_state s1 = random_state s2 →
  remote s1 url names = inr df1 →
  remote s2 url names = inr df2 →
  slice_columns 0 8 (values df1) = slice_columns 0 8 (values df2) →
  index_column 8 (values df1) = inr labels1 →
  index_column 8 (values df2) = inr labels2 →
  match outcome (pca_cell s1), outcome (pca_cell s2) with
  | inr (_, fit1), inr (_, fit2) =>
      fit1 = fit2 ∧
      components_ fit1 = components_ fit2 ∧
      explained_variance_ratio_ fit1 = explained_variance_ratio_ fit2
  | inl e1, inl e2 => e1 = e2
  | _, _ => False
  end.
Proof.
destruct s1 as [p1 rs1 table1 q1], s2 as [p2 rs2 table2 q2]; simpl.
intros -> H1 H2 HX HY1 HY2.
step_cell. rewrite H1, H2. simpl. rewrite HY1, HY2. simpl. rewrite HX.
destruct (PCA_fit 3 (slice_columns 0 8 (values df2)) rs2) as [[e | fit] rs']; simpl; auto.
Qed.

End CellFacts.

(** ** The univariate selector *)

Section UnivariateFacts.
Import Selectors.
Context {num : Type} (le : relation num) `{!RelDecision le}.
Implicit Types (X : matrix num) (Y scores : vector num) (row : list num).

Lemma result_mapM_length {A B} (f : A → result B) (l : list A) (l' : list B) :
  result_mapM f l = inr l' → length l' = length l.
Proof.
revert l'. induction l as [| a l IH]; intros l'; simpl.
- by intros [= <-].
- destruct (f a); [discriminate |].
  destruct (result_mapM f l); [discriminate |].
  intros [= <-]. simpl. f_equal. by apply IH.
Qed.

Lemma result_mapM_returns {A B} (f : A → result B) (l : list A) :
  Forall (λ a, ∃ b, f a = inr b) l → ∃ l', result_mapM f l = inr l'.
Proof.
induction 1 as [| a l [b Hb] _ [l' IH]]; simpl; [by eexists |].
rewrite Hb, IH. by eexists.
Qed.

Lemma ncols_rectangular m X : X ≠ [] → rectangular m X → ncols X = m.
Proof. destruct X as [| row X]; [done |]. intros _ HX. by inv HX. Qed.

Lemma univariate_length statistic X Y scores :
  univariate statistic X Y = inr scores → length scores = ncols X.
Proof.
unfold univariate, attribute_columns. intros H%result_mapM_length.
by rewrite H, length_fmap, length_seq.
Qed.

(** *** The ranking *)

Lemma ranked_Permutation scores :
  ranked le scores ≡ₚ zip (seq 0 (length scores)) scores.
Proof. apply merge_sort_Permutation. Qed.

Lemma length_ranked scores : length (ranked le scores) = length scores.
Proof.
rewrite ranked_Permutation, length_zip, length_seq. lia.
Qed.

Lemma ranked_positions scores :
  (ranked le scores).*1 ≡ₚ seq 0 (length scores).
Proof.
rewrite ranked_Permutation, fst_zip; [done |]. by rewrite length_seq.
Qed.

Lemma elem_of_zip_seq (j : nat) (v : num) scores :
  (j, v) ∈ zip (seq 0 (length scores)) scores ↔ scores !! j = Some v.
Proof.
rewrite list_elem_of_lookup. split.
- intros (i & (Hi & Hv)%lookup_zip_Some). simpl in *.
  apply lookup_seq in Hi as [-> _]. done.
- intros Hv. exists j. apply lookup_zip_Some. simpl. split; [| done].
  apply lookup_seq. split; [done |]. by eapply lookup_lt_Some.
Qed.

Lemma elem_of_ranked (j : nat) (v : num) scores :
  (j, v) ∈ ranked le scores ↔ scores !! j = Some v.
Proof. by rewrite ranked_Permutation, elem_of_zip_seq. Qed.

Lemma length_k_best k scores :
  k ≤ length scores → length (k_best le k scores) = k.
Proof.
intros Hk. unfold k_best. rewrite length_fmap, length_drop, length_ranked. lia.
Qed.

Lemma NoDup_k_best k scores : NoDup (k_best le k scores).
Proof.
unfold k_best. rewrite fmap_drop.
eapply sublist_NoDup; [| apply sublist_drop].
rewrite ranked_positions. apply NoDup_seq.
Qed.

Lemma elem_of_k_best k scores j :
  j ∈ k_best le k scores → j < length scores.
Proof.
unfold k_best. rewrite fmap_drop. intros Hj%subseteq_drop.
rewrite ranked_positions in Hj. apply elem_of_seq in Hj. lia.
Qed.

Lemma elem_of_selected k scores j :
  j ∈ selected le k scores ↔ j ∈ k_best le k scores.
Proof.
unfold selected. rewrite list_elem_of_filter, elem_of_seq.
split; [tauto |]. intros Hj. split; [done |].
apply elem_of_k_best in Hj. lia.
Qed.

Lemma selected_Permutation k scores :
  selected le k scores ≡ₚ k_best le k scores.
Proof.
apply NoDup_Permutation.
- apply NoDup_filter, NoDup_seq.
- apply NoDup_k_best.
- apply elem_of_selected.
Qed.

Lemma length_selected k scores :
  k ≤ length scores → length (selected le k scores) = k.
Proof. intros Hk. by rewrite selected_Permutation, length_k_best. Qed.

Lemma StronglySorted_seq j n : StronglySorted lt (seq j n).
Proof.
revert j. induction n as [| n IH]; intros j; simpl; constructor; [apply IH |].
apply Forall_forall. intros i Hi%elem_of_seq. lia.
Qed.

Lemma StronglySorted_filter {A} (R : relation A) (P : A → Prop)
    `{!∀ x, Decision (P x)} (l : list A) :
  StronglySorted R l → StronglySorted R (filter P l).
Proof.
induction 1 as [| x l Hl IH Hx]; [constructor |].
rewrite filter_cons. destruct (decide (P x)); [| done].
constructor; [done |].
apply Forall_forall. intros y [_ Hy]%list_elem_of_filter.
rewrite Forall_forall in Hx. by apply Hx.
Qed.

Lemma StronglySorted_selected k scores :
  StronglySorted lt (selected le k scores).
Proof. apply StronglySorted_filter, StronglySorted_seq. Qed.

(** Whatever is kept scores at least as high as whatever is dropped. *)
Lemma k_best_highest `{!Total le, !Transitive le} k scores j j' v v' :
  j ∈ k_best le k scores → j' ∉ k_best le k scores →
  scores !! j = Some v → scores !! j' = Some v' → le v' v.
Proof.
intros Hj Hj' Hv Hv'.
assert (Hsorted : StronglySorted (by_score le) (ranked le scores)).
{ apply StronglySorted_merge_sort.
  - intros a b c. unfold by_score. apply transitivity.
  - intros a b. unfold by_score. apply total. apply _. }
rewrite <- (take_drop (length scores - k) (ranked le scores)) in Hsorted.
unfold k_best in Hj, Hj'.
apply list_elem_of_fmap in Hj as ([i w] & -> & Hin). simpl in *.
assert (w = v) as ->.
{ apply subseteq_drop, elem_of_ranked in Hin. congruence. }
apply elem_of_ranked in Hv'.
rewrite <- (take_drop (length scores - k) (ranked le scores)) in Hv'.
apply elem_of_app in Hv' as [Hlow | Hhigh].
- apply (StronglySorted_app_1_elem_of _ _ _ _ _ Hsorted Hlow Hin).
- destruct Hj'. apply list_elem_of_fmap. by exists (j', v').
Qed.

(** *** Columns of the reduced matrix *)

Lemma omap_lookup_all row (positions : list nat) i j :
  Forall (λ j, j < length row) positions →
  positions !! i = Some j →
  omap (λ j, row !! j) positions !! i = row !! j.
Proof.
intros Hall. revert i. induction Hall as [| p ps Hp _ IH]; intros i; [done |].
simpl. destruct (lookup_lt_is_Some_2 row p Hp) as [v Hv]. rewrite Hv.
destruct i as [| i]; simpl.
- intros [= <-]. done.
- apply IH.
Qed.

Lemma omap_length_all row (positions : list nat) :
  Forall (λ j, j < length row) positions →
  length (omap (λ j, row !! j) positions) = length positions.
Proof.
induction 1 as [| p ps Hp _ IH]; [done |].
simpl. destruct (lookup_lt_is_Some_2 row p Hp) as [v ->]. simpl. by f_equal.
Qed.

Lemma take_columns_rectangular m X (positions : list nat) :
  rectangular m X → Forall (λ j, j < m) positions →
  rectangular (length positions) (take_columns positions X).
Proof.
unfold rectangular, take_columns. intros HX Hall.
apply Forall_fmap. eapply Forall_impl; [exact HX |].
intros row <-. simpl. by apply omap_length_all.
Qed.

Lemma column_cons i row X :
  column i (row :: X) =
  match row !! i with
  | Some v => v :: column i X
  | None => column i X
  end.
Proof. reflexivity. Qed.

Lemma take_columns_column m X (positions : list nat) i j :
  rectangular m X → Forall (λ j, j < m) positions →
  positions !! i = Some j →
  column i (take_columns positions X) = column j X.
Proof.
unfold rectangular. intros HX Hall Hi.
induction HX as [| row X Hrow _ IH]; [done |].
unfold take_columns in *. rewrite fmap_cons, !column_cons, IH.
rewrite (omap_lookup_all row positions i j); [done | by rewrite Hrow | done].
Qed.

Lemma SelectKBest_run (f : score_func num) k X Y :
  SelectKBest le f k X Y =
  match f X Y with
  | inl e => inl e
  | inr scores =>
      inr {| scores_ := scores;
             transform := λ X', inr (take_columns (selected le (Z.to_nat k) scores) X') |}
  end.
Proof. reflexivity. Qed.

(** ** Claims about the univariate selector *)

(** C1 (univariate selection). On a dataset of [m] attribute columns and for
    every [k] between 1 and [m], the score array of the fitted selector has
    [m] entries and the transformed matrix has exactly [k] columns; these are
    [k] distinct attribute columns of the dataset, in attribute order, and
    each of them scores at least as high as every attribute left out.  The
    fit returns whenever the statistic returns on every attribute column. *)
Theorem univariate_selector_keeps_k_best `{!Total le, !Transitive le}
    (statistic : vector num → vector num → result num) (k : Z) (m : nat) X Y :
  X ≠ [] → rectangular m X → (1 ≤ k ≤ Z.of_nat m)%Z →
  (∀ fit,
     SelectKBest le (univariate statistic) k X Y = inr fit →
     length (scores_ fit) = m ∧
     ∃ X' positions,
       transform fit X = inr X' ∧
       length X' = length X ∧
       rectangular (Z.to_nat k) X' ∧
       length positions = Z.to_nat k ∧
       StronglySorted lt positions ∧
       (∀ i j, positions !! i = Some j → j < m ∧ column i X' = column j X) ∧
       (∀ j j' v v',
          j ∈ positions → j' ∉ positions →
          scores_ fit !! j = Some v → scores_ fit !! j' = Some v' → le v' v)) ∧
  (Forall (λ col, ∃ v, statistic col Y = inr v) (attribute_columns X) →
   ∃ fit, SelectKBest le (univariate statistic) k X Y = inr fit).
Proof.
intros Hne HX Hk. split.
- intros fit. rewrite SelectKBest_run.
  destruct (univariate statistic X Y) as [e | scores] eqn:Escores; [discriminate |].
  intros [= <-]. simpl.
  assert (Hlen : length scores = m).
  { apply univariate_length in Escores. by rewrite Escores, (ncols_rectangular m). }
  assert (Hbound : Forall (λ j, j < m) (selected le (Z.to_nat k) scores)).
  { apply Forall_forall. intros j Hj%elem_of_selected%elem_of_k_best. lia. }
  assert (Hsize : length (selected le (Z.to_nat k) scores) = Z.to_nat k).
  { apply length_selected. lia. }
  split; [done |].
  exists (take_columns (selected le (Z.to_nat k) scores) X),
         (selected le (Z.to_nat k) scores).
  repeat split.
  + unfold take_columns. by rewrite length_fmap.
  + pose proof (take_columns_rectangular m X _ HX Hbound) as Hrect.
    by rewrite Hsize in Hrect.
  + done.
  + apply StronglySorted_selected.
  + rewrite Forall_forall in Hbound. apply Hbound.
    by eapply list_elem_of_lookup_2.
  + by apply (take_columns_column m).
  + intros j j' v v' Hj Hj'. rewrite elem_of_selected in Hj, Hj'.
    by apply (k_best_highest (Z.to_nat k) scores j j').
- intros Hall. rewrite SelectKBest_run. unfold univariate.
  destruct (result_mapM_returns (λ col, statistic col Y) _ Hall) as [scores ->].
  by eexists.
Qed.

End UnivariateFacts.

(** ** The recursive-elimination selector *)

Section EliminationFacts.
Import Selectors.
Context {num RandomState : Type} (le : relation num) `{!RelDecision le}.
Implicit Types (X : matrix num) (Y : vector num) (st : elimination)
  (support : list bool) (ranking : list Z) (rs : RandomState)
  (model : estimator num RandomState).

Lemma weakest_elem (l : list (nat * num)) p : weakest le l = Some p → p ∈ l.
Proof.
revert p. induction l as [| q l IH]; intros p; simpl; [discriminate |].
destruct (weakest le l) as [q' |].
- destruct (decide (le q.2 q'.2)); intros [= <-]; [left | right; by apply IH].
- intros [= <-]. left.
Qed.

Lemma weakest_is_Some (l : list (nat * num)) : l ≠ [] → is_Some (weakest le l).
Proof.
destruct l as [| q l]; [done |]. intros _. simpl.
destruct (weakest le l); [destruct (decide _) |]; by eexists.
Qed.

Lemma elem_of_remaining support j :
  j ∈ remaining support ↔ support !! j = Some true.
Proof.
unfold remaining. rewrite list_elem_of_filter, elem_of_seq.
split; [tauto |]. intros Hj. split; [done |].
apply lookup_lt_Some in Hj. lia.
Qed.

(** *** One attribute leaves *)

Lemma ranks_move_up support ranking :
  rank_one_iff_retained support ranking →
  rank_one_iff_retained support
    (zip_with (λ (kept : bool) (r : Z), if kept then r else (r + 1)%Z) support ranking).
Proof.
unfold rank_one_iff_retained.
induction 1 as [| kept r support ranking Hr _ IH]; simpl; constructor; [| done].
destruct kept; lia.
Qed.

Lemma discard_ranks j st :
  rank_one_iff_retained (support st) (ranking st) →
  rank_one_iff_retained (support (discard j st)) (ranking (discard j st)).
Proof.
unfold rank_one_iff_retained. destruct st as [support ranking]. simpl.
intros H. revert j.
induction H as [| kept r support ranking Hr Hrest IH]; intros j; [constructor |].
destruct j as [| j]; simpl; constructor.
- destruct kept; lia.
- by apply ranks_move_up.
- destruct kept; lia.
- apply IH.
Qed.

Lemma discard_count j support :
  support !! j = Some true →
  S (count_true (<[j := false]> support)) = count_true support.
Proof.
unfold count_true. revert j.
induction support as [| kept support IH]; intros j; [done |].
destruct j as [| j]; simpl.
- intros [= ->]. rewrite !filter_cons. simpl.
  destruct (decide (false = true)); [done |].
  destruct (decide (true = true)); done.
- intros Hj. rewrite !filter_cons.
  destruct (decide (kept = true)); simpl; rewrite <- (IH j Hj); done.
Qed.

Lemma elimination_round_step model X Y st st' rs rs' :
  elimination_round le model X Y st rs = (inr st', rs') →
  length (support st') = length (support st) ∧
  S (count_true (support st')) = count_true (support st) ∧
  (rank_one_iff_retained (support st) (ranking st) →
   rank_one_iff_retained (support st') (ranking st')).
Proof.
unfold elimination_round.
destruct (model _ Y rs) as [[e | weights] rs'']; [discriminate |].
destruct (weakest le _) as [[j w] |] eqn:Ew; [| discriminate].
intros [= <- <-].
apply weakest_elem, elem_of_zip_l, elem_of_remaining in Ew.
split; [apply length_insert |].
split; [by apply discard_count | apply discard_ranks].
Qed.

Lemma eliminate_steps rounds model X Y st st' rs rs' :
  eliminate le rounds model X Y st rs = (inr st', rs') →
  length (support st') = length (support st) ∧
  count_true (support st') + rounds = count_true (support st) ∧
  (rank_one_iff_retained (support st) (ranking st) →
   rank_one_iff_retained (support st') (ranking st')).
Proof.
revert st rs. induction rounds as [| rounds IH]; intros st rs; simpl.
- intros [= <- <-]. repeat split; [lia | done].
- destruct (elimination_round le model X Y st rs) as [[e | st1] rs1] eqn:E1;
    [discriminate |].
  intros E. apply elimination_round_step in E1 as (Hlen1 & Hcount1 & Hrank1).
  apply IH in E as (Hlen & Hcount & Hrank).
  repeat split; [congruence | lia | auto].
Qed.

(** *** Reading the ranks *)

Lemma count_true_replicate m : count_true (replicate m true) = m.
Proof.
unfold count_true. induction m as [| m IH]; [done |].
cbn [replicate]. rewrite filter_cons. destruct (decide (true = true)); [| done].
simpl. by f_equal.
Qed.

Lemma rank_one_iff_retained_start m :
  rank_one_iff_retained (replicate m true) (replicate m 1%Z).
Proof. induction m; constructor; done. Qed.

Lemma rank_one_count support ranking :
  rank_one_iff_retained support ranking →
  length (filter (λ r, r = 1%Z) ranking) = count_true support.
Proof.
unfold count_true.
induction 1 as [| kept r support ranking Hr _ IH]; [done |].
rewrite !filter_cons. destruct kept.
- subst r. destruct (decide (1%Z = 1%Z)); [| done].
  destruct (decide (true = true)); [| done]. simpl. by f_equal.
- destruct (decide (r = 1%Z)); [lia |].
  destruct (decide (false = true)); done.
Qed.

Lemma rank_one_positions support ranking j :
  rank_one_iff_retained support ranking →
  ranking !! j = Some 1%Z ↔ support !! j = Some true.
Proof.
intros H. revert j.
induction H as [| kept r support ranking Hr _ IH]; intros j; [done |].
destruct j as [| j]; simpl; [| apply IH].
destruct kept; split; intros ?; simplify_eq; try done; lia.
Qed.

(** *** The loop returns *)

Lemma remaining_nonempty support :
  0 < count_true support → remaining support ≠ [].
Proof.
unfold count_true. intros Hpos.
destruct (filter (λ b, b = true) support) as [| kept l] eqn:E; [simpl in Hpos; lia |].
assert (Hin : kept ∈ filter (λ b, b = true) support) by (rewrite E; left).
apply list_elem_of_filter in Hin as [-> Hin].
apply list_elem_of_lookup in Hin as [j Hj].
apply elem_of_remaining in Hj. intros Hnil. rewrite Hnil in Hj. inv Hj.
Qed.

Lemma remaining_bound support j : j ∈ remaining support → j < length support.
Proof. intros Hj%elem_of_remaining. by eapply lookup_lt_Some. Qed.

Lemma elimination_round_returns model m X Y st rs :
  one_weight_per_column model →
  X ≠ [] → rectangular m X →
  length (support st) = m → 0 < count_true (support st) →
  ∃ st' rs', elimination_round le model X Y st rs = (inr st', rs').
Proof.
intros Hmodel Hne HX Hlen Hpos. unfold elimination_round.
destruct (Hmodel (take_columns (remaining (support st)) X) Y rs)
  as (weights & rs' & -> & Hweights).
assert (Hsome : is_Some (weakest le (zip (remaining (support st)) weights))).
{ apply weakest_is_Some.
  pose proof (remaining_nonempty _ Hpos) as Hfeatures.
  destruct X as [| row X]; [done |]. inv HX.
  unfold take_columns in Hweights. rewrite fmap_cons in Hweights. simpl in Hweights.
  rewrite omap_length_all in Hweights.
  - destruct (remaining (support st)); [done |].
    destruct weights; [done | done].
  - apply Forall_forall. intros j Hj%remaining_bound. lia. }
destruct Hsome as [[j w] ->]. by eexists _, _.
Qed.

Lemma eliminate_returns rounds model m X Y st rs :
  one_weight_per_column model →
  X ≠ [] → rectangular m X →
  length (support st) = m → rounds ≤ count_true (support st) →
  ∃ st' rs', eliminate le rounds model X Y st rs = (inr st', rs').
Proof.
intros Hmodel Hne HX. revert st rs.
induction rounds as [| rounds IH]; intros st rs Hlen Hrounds; simpl.
- by eexists _, _.
- destruct (elimination_round_returns model m X Y st rs) as (st1 & rs1 & E1);
    [done | done | done | done | lia |].
  rewrite E1. apply elimination_round_step in E1 as (Hlen1 & Hcount1 & _).
  apply IH; [congruence | lia].
Qed.

(** ** Claims about the recursive-elimination selector *)

(** C2 (recursive elimination). On a dataset of [m] attribute columns and for
    every retain-count [n] between 1 and [m], the mask of the fitted selector
    has [m] entries of which exactly [n] are true, and its rank array has [m]
    entries of which exactly [n] are 1, at exactly the positions where the
    mask is true.  The fit returns whenever the wrapped model returns one
    weight per column it is fitted on. *)
Theorem recursive_elimination_keeps_n model (n : Z) (m : nat) X Y :
  X ≠ [] → rectangular m X → (1 ≤ n ≤ Z.of_nat m)%Z →
  (∀ rs fit rs',
     RFE le model n X Y rs = (inr fit, rs') →
     length (support_ fit) = m ∧
     count_true (support_ fit) = Z.to_nat n ∧
     n_features_ fit = n ∧
     length (ranking_ fit) = m ∧
     length (filter (λ r, r = 1%Z) (ranking_ fit)) = Z.to_nat n ∧
     (∀ j, ranking_ fit !! j = Some 1%Z ↔ support_ fit !! j = Some true)) ∧
  (one_weight_per_column model →
   ∀ rs, ∃ fit rs', RFE le model n X Y rs = (inr fit, rs')).
Proof.
intros Hne HX Hn.
assert (Hm : ncols X = m) by by apply ncols_rectangular.
unfold RFE. rewrite Hm. split.
- intros rs fit rs'.
  destruct (eliminate le _ model X Y _ rs) as [[e | st] rs1] eqn:E; [discriminate |].
  intros [= <- <-]. simpl.
  apply eliminate_steps in E as (Hlen & Hcount & Hrank). simpl in *.
  rewrite length_replicate in Hlen. rewrite count_true_replicate in Hcount.
  specialize (Hrank (rank_one_iff_retained_start m)).
  assert (Hkept : count_true (support st) = Z.to_nat n) by lia.
  repeat split.
  + done.
  + done.
  + lia.
  + apply Forall2_length in Hrank. lia.
  + by rewrite (rank_one_count (support st)).
  + by apply rank_one_positions.
  + by apply rank_one_positions.
- intros Hmodel rs.
  destruct (eliminate_returns (m - Z.to_nat n) model m X Y
              (Elimination (replicate m true) (replicate m 1%Z)) rs)
    as (st & rs1 & ->); simpl.
  + done.
  + done.
  + done.
  + apply length_replicate.
  + rewrite count_true_replicate. lia.
  + by eexists _, _.
Qed.

End EliminationFacts.

(** ** More about the cells: loading, failures, execution by hand *)

Section CellCoverage.
Import Notebook.
Context {num RandomState : Type} `{L : Library num RandomState}.
Implicit Types s : session num RandomState.

Ltac unfold_cell :=
  unfold univariate_cell, rfe_cell, pca_cell, importance_cell, load_data, void,
    bind, read_csv, lift, call, ret, set_printoptions, print in *;
  simpl in *.

Ltac case_cell := repeat (case_match; simpl in *; simplify_eq); simpl in *.

Ltac only_loading :=
  split;
  [ intros [= ->]; by left
  | intros [[= ->] | ?]; [done |];
    repeat match goal with
           | H : _ ∨ _ |- _ => destruct H
           | H : ∃ _, _ |- _ => destruct H
           | H : _ ∧ _ |- _ => destruct H
           end; discriminate ].

(** *** The two slices of a nine-column table *)

Lemma split_row (row : list num) :
  length row = 9 →
  ∃ y, row !! 8 = Some y ∧ length (take 8 row) = 8 ∧ take 8 row ++ [y] = row.
Proof.
intros Hrow.
destruct (lookup_lt_is_Some_2 row 8) as [y Hy]; [lia |].
exists y. split; [done |]. split; [rewrite length_take; lia |].
rewrite <- (take_drop 8 row) at 2. f_equal.
rewrite (drop_S row y 8 Hy), drop_ge; [done | lia].
Qed.

Lemma split_table (table : matrix num) :
  rectangular 9 table →
  ∃ labels,
    index_column 8 table = inr labels ∧
    length labels = length table ∧
    rectangular 8 (slice_columns 0 8 table) ∧
    recombine (slice_columns 0 8 table) labels = table.
Proof.
unfold rectangular.
induction 1 as [| row table Hrow _ (labels & Hlabels & Hlen & Hrect & Hback)].
- exists []. repeat split. constructor.
- destruct (split_row row Hrow) as (y & Hy & Htake & Hrejoin).
  exists (y :: labels).
  change (slice_columns 0 8 (row :: table))
    with (take 8 row :: slice_columns 0 8 table).
  unfold index_column in *. cbn [result_mapM]. rewrite Hy, Hlabels.
  split; [done |]. split; [simpl; by f_equal |]. split.
  + by constructor.
  + unfold recombine in *. cbn [zip_with]. by rewrite Hrejoin, Hback.
Qed.

(** X1. Loading a table of nine columns never raises, and its two slices
    split the table without loss: [X] keeps the eight attribute columns of
    every record, [Y] holds one label per record, and the two side by side
    are the table again. *)
Theorem load_splits_table s df :
  remote s url names = inr df →
  rectangular 9 (values df) →
  ∃ d, outcome (load_data s) = inr d ∧
       array d = values df ∧
       length (X d) = length (array d) ∧
       rectangular 8 (X d) ∧
       length (Y d) = length (array d) ∧
       recombine (X d) (Y d) = array d.
Proof.
intros Hserved Hshape. rewrite load_data_run, Hserved. simpl.
destruct (split_table (values df) Hshape) as (labels & -> & Hlen & Hrect & Hback).
simpl. eexists. split; [reflexivity |]. simpl.
repeat split; try done.
unfold slice_columns. by rewrite length_fmap.
Qed.

(** *** Failures *)

Lemma load_data_raises s e :
  outcome (load_data s) = inl e ↔ loading_raises s e.
Proof.
rewrite load_data_run. unfold loading_raises. simpl.
destruct (remote s url names) as [e' | df]; simpl.
- split; [intros [= ->]; by left |].
  intros [[= ->] | (df & [=] & _)]. done.
- destruct (index_column 8 (values df)) as [e' | labels] eqn:E; simpl.
  + split; [intros [= ->]; right; by exists df |].
    intros [[=] | (df' & [= <-] & Hraise)]. congruence.
  + split; [discriminate |].
    intros [[=] | (df' & [= <-] & Hraise)]. congruence.
Qed.

(** X2. The recursive-elimination, projection and ensemble cells print all of
    their report or nothing: a cell that ends with an exception, whichever
    call raised it, has printed nothing, and a cell that completes has
    printed its three, two or one lines. *)
Theorem later_cells_print_all_or_nothing s :
  match outcome (rfe_cell s) with
  | inl _ => stdout (rfe_cell s) = []
  | inr _ => length (stdout (rfe_cell s)) = 3
  end ∧
  match outcome (pca_cell s) with
  | inl _ => stdout (pca_cell s) = []
  | inr _ => length (stdout (pca_cell s)) = 2
  end ∧
  match outcome (importance_cell s) with
  | inl _ => stdout (importance_cell s) = []
  | inr _ => length (stdout (importance_cell s)) = 1
  end.
Proof. repeat split; unfold_cell; case_cell; reflexivity. Qed.

(** X3. The univariate cell is not all-or-nothing.  When it ends with an
    exception, either nothing was printed and the print precision is as it
    was, or the exception is the one [transform] raised after a fit that
    returned: then the score array is already printed and the precision is
    already 3.  When it completes, it has printed two lines and the precision
    is 3. *)
Theorem univariate_cell_failure_modes s :
  match outcome (univariate_cell s) with
  | inr _ =>
      length (stdout (univariate_cell s)) = 2 ∧
      precision (final (univariate_cell s)) = 3
  | inl e =>
      (stdout (univariate_cell s) = [] ∧
       precision (final (univariate_cell s)) = precision s) ∨
      (∃ d fit rs,
         outcome (load_data s) = inr d ∧
         SelectKBest_fit chi2 4 (X d) (Y d) (random_state s) = (inr fit, rs) ∧
         transform fit (X d) = inl e ∧
         stdout (univariate_cell s) = [Printed 3 [PyFloats (scores_ fit)]] ∧
         precision (final (univariate_cell s)) = 3 ∧
         random_state (final (univariate_cell s)) = rs)
  end.
Proof.
rewrite load_data_run. unfold_cell.
destruct (remote s url names) as [e | df]; simpl; [by left |].
destruct (index_column 8 (values df)) as [e | labels]; simpl; [by left |].
destruct (SelectKBest_fit chi2 4 (slice_columns 0 8 (values df)) labels (random_state s))
  as [[e | fit] rs] eqn:Efit; simpl; [by left |].
destruct (transform fit (slice_columns 0 8 (values df))) as [e | features] eqn:Et;
  simpl; [| done].
right.
exists (Loaded (values df) (slice_columns 0 8 (values df)) labels), fit, rs.
simpl. repeat split; done.
Qed.

(** X4. The cells catch nothing: a cell ends with an exception exactly when
    one of its calls raised it, and it ends with that very exception.  The
    calls are the load lines, the fit and, in the univariate cell only, the
    transform; printing never raises. *)
Theorem cells_pass_exceptions_on s e :
  (outcome (univariate_cell s) = inl e ↔
     loading_raises s e ∨
     (∃ d rs, outcome (load_data s) = inr d ∧
              SelectKBest_fit chi2 4 (X d) (Y d) (random_state s) = (inl e, rs)) ∨
     (∃ d fit rs, outcome (load_data s) = inr d ∧
                  SelectKBest_fit chi2 4 (X d) (Y d) (random_state s) = (inr fit, rs) ∧
                  transform fit (X d) = inl e)) ∧
  (outcome (rfe_cell s) = inl e ↔
     loading_raises s e ∨
     ∃ d rs, outcome (load_data s) = inr d ∧
             RFE_fit LogisticRegression 3 (X d) (Y d) (random_state s) = (inl e, rs)) ∧
  (outcome (pca_cell s) = inl e ↔
     loading_raises s e ∨
     ∃ d rs, outcome (load_data s) = inr d ∧
             PCA_fit 3 (X d) (random_state s) = (inl e, rs)) ∧
  (outcome (importance_cell s) = inl e ↔
     loading_raises s e ∨
     ∃ d rs, outcome (load_data s) = inr d ∧
             ExtraTreesClassifier_fit (X d) (Y d) (random_state s) = (inl e, rs)).
Proof.
rewrite <- load_data_raises. rewrite load_data_run. unfold_cell.
destruct (remote s url names) as [e0 | df]; simpl.
{ split; [| split; [| split]]; only_loading. }
destruct (index_column 8 (values df)) as [e0 | labels]; simpl.
{ split; [| split; [| split]]; only_loading. }
repeat split.
- destruct (SelectKBest_fit _ _ _ _ _) as [[e1 | fit] rs] eqn:Efit; simpl.
  + intros [= ->]. right. left. by eexists _, _.
  + destruct (transform fit _) as [e1 | features] eqn:Et; simpl; [| discriminate].
    intros [= ->]. right. right. by eexists _, _, _.
- intros [[=] | [(d & rs & [= <-] & Hfit) | (d & fit & rs & [= <-] & Hfit & Ht)]];
    simpl in *; rewrite Hfit; simpl; [done |]. by rewrite Ht.
- destruct (RFE_fit _ _ _ _ _) as [[e1 | fit] rs] eqn:Efit; simpl; [| discriminate].
  intros [= ->]. right. by eexists _, _.
- intros [[=] | (d & rs & [= <-] & Hfit)]. simpl in *. by rewrite Hfit.
- destruct (PCA_fit _ _ _) as [[e1 | fit] rs] eqn:Efit; simpl; [| discriminate].
  intros [= ->]. right. by eexists _, _.
- intros [[=] | (d & rs & [= <-] & Hfit)]. simpl in *. by rewrite Hfit.
- destruct (ExtraTreesClassifier_fit _ _ _) as [[e1 | fit] rs] eqn:Efit; simpl;
    [| discriminate].
  intros [= ->]. right. by eexists _, _.
- intros [[=] | (d & rs & [= <-] & Hfit)]. simpl in *. by rewrite Hfit.
Qed.

(** *** Cells executed by hand *)

Lemma univariate_cell_precision_moves s :
  precision (final (univariate_cell s)) = precision s ∨
  precision (final (univariate_cell s)) = 3.
Proof. unfold_cell. case_cell; auto. Qed.

Lemma notebook_cell_precision (c : py ()) s :
  c ∈ notebook →
  Forall (λ p, shown_at p = precision s ∨ shown_at p = 3) (stdout (c s)) ∧
  (precision (final (c s)) = precision s ∨ precision (final (c s)) = 3).
Proof.
unfold notebook. rewrite !elem_of_cons, elem_of_nil.
intros [-> | [-> | [-> | [-> | []]]]];
  match goal with |- context [void ?c s] => destruct (void_run c s) as (-> & -> & _) end.
- split; [| apply univariate_cell_precision_moves].
  eapply Forall_impl; [apply univariate_cell_precision |]. simpl. auto.
- destruct (rfe_cell_precision s) as [Hp ->]. split; [| by left].
  eapply Forall_impl; [exact Hp |]. simpl. auto.
- destruct (pca_cell_precision s) as [Hp ->]. split; [| by left].
  eapply Forall_impl; [exact Hp |]. simpl. auto.
- destruct (importance_cell_precision s) as [Hp ->]. split; [| by left].
  eapply Forall_impl; [exact Hp |]. simpl. auto.
Qed.

Lemma notebook_cell_requests (c : py ()) s :
  c ∈ notebook → requests (final (c s)) = requests s ++ [url].
Proof.
intros Hc. pose proof notebook_requests as Hall.
rewrite Forall_forall in Hall. by apply Hall.
Qed.

Lemma execute_cells_length (cells : list (py ())) s :
  length (execute_cells cells s) = length cells.
Proof.
revert s. induction cells as [| c cells IH]; intros s; simpl; [done |].
by rewrite IH.
Qed.

(** A run of the whole notebook is execution by hand cut at the first
    exception. *)
Lemma run_cells_prefix (cells : list (py ())) s :
  run_cells cells s `prefix_of` execute_cells cells s.
Proof.
revert s. induction cells as [| c cells IH]; intros s; simpl; [done |].
apply prefix_cons. destruct (outcome (c s)); [apply prefix_nil | apply IH].
Qed.

Lemma execute_cells_precision_moves (cells : list (py ())) :
  drawn_from_notebook cells →
  ∀ s, Forall (λ r, Forall (λ p, shown_at p = precision s ∨ shown_at p = 3) (stdout r))
              (execute_cells cells s) ∧
       (precision (session_after (execute_cells cells s) s) = precision s ∨
        precision (session_after (execute_cells cells s) s) = 3).
Proof.
unfold drawn_from_notebook, session_after.
induction 1 as [| c cells Hc _ IH]; intros s; simpl; [by auto |].
destruct (notebook_cell_precision c s Hc) as [Hprints Hmoves].
destruct (IH (final (c s))) as [Hrest Hlast]. split.
- constructor; [done |].
  eapply Forall_impl; [exact Hrest |]. simpl. intros r Hr.
  eapply Forall_impl; [exact Hr |]. simpl. intros p.
  destruct Hmoves as [-> | ->]; tauto.
- rewrite last_cons.
  destruct (last (execute_cells cells (final (c s)))) as [r |]; simpl in *.
  + destruct Hmoves as [Hm | Hm]; rewrite Hm in Hlast; tauto.
  + done.
Qed.

(** X5. However the cells are executed by hand, in any order, any number of
    times and also after a cell that ended with an exception, the print
    precision only ever moves to 3: every line of every report is printed at
    the precision the session started with or at 3, and in a session whose
    precision is 3 already, as after the univariate cell, every line is
    printed at 3 and the precision stays 3. *)
Theorem precision_only_moves_to_three (cells : list (py ())) s :
  drawn_from_notebook cells →
  length (execute_cells cells s) = length cells ∧
  Forall (λ r, Forall (λ p, shown_at p = precision s ∨ shown_at p = 3) (stdout r))
         (execute_cells cells s) ∧
  (precision (session_after (execute_cells cells s) s) = precision s ∨
   precision (session_after (execute_cells cells s) s) = 3) ∧
  (precision s = 3 →
   Forall (λ r, Forall (λ p, shown_at p = 3) (stdout r)) (execute_cells cells s) ∧
   precision (session_after (execute_cells cells s) s) = 3).
Proof.
intros Hcells.
destruct (execute_cells_precision_moves cells Hcells s) as [Hprints Hlast].
split; [apply execute_cells_length |]. split; [done |]. split; [done |].
intros Hthree. rewrite Hthree in Hprints, Hlast. split; [| tauto].
eapply Forall_impl; [exact Hprints |]. simpl. intros r Hr.
eapply Forall_impl; [exact Hr |]. simpl. tauto.
Qed.

(** X6. Nothing is cached between executions: however the cells are executed
    by hand, every one of them is executed, also a repeated one and one that
    follows a failing cell, and each requests the table once more from the
    same address, whether it then completes or not. *)
Theorem every_execution_requests_the_table (cells : list (py ())) s :
  drawn_from_notebook cells →
  length (execute_cells cells s) = length cells ∧
  requests (session_after (execute_cells cells s) s) =
    requests s ++ replicate (length cells) url ∧
  ∀ i r, execute_cells cells s !! i = Some r →
         requests (final r) = requests s ++ replicate (S i) url.
Proof.
intros Hcells. split; [apply execute_cells_length |].
unfold drawn_from_notebook, session_after in *.
revert s. induction Hcells as [| c cells Hc _ IH]; intros s; simpl.
- split; [by rewrite app_nil_r | done].
- destruct (IH (final (c s))) as [Hlast Heach].
  rewrite (notebook_cell_requests c s Hc) in Hlast, Heach. split.
  + rewrite last_cons.
    destruct (last (execute_cells cells (final (c s)))) as [r |] eqn:El; simpl in *.
    * by rewrite Hlast, <- app_assoc.
    * apply last_None in El. destruct cells; [| discriminate].
      by apply notebook_cell_requests.
  + intros [| i] r; simpl.
    * intros [= <-]. by apply notebook_cell_requests.
    * intros Hr. rewrite (Heach i r Hr), <- app_assoc. done.
Qed.

End CellCoverage.

(** ** The statements on the concrete session *)

Module SampleRuns.
Import Notebook Selectors Sample.

(** The run of the four cells on the sample: four reports, the univariate one
    with 8 scores and rows of 4 columns, the recursive-elimination one with 3
    retained attributes. *)
Example sample_run :
  (λ r, (outcome r, length (stdout r))) <$> run_all (fresh pima_head) =
    [(inr (), 2); (inr (), 3); (inr (), 2); (inr (), 1)] ∧
  (shown <$> stdout (univariate_cell (fresh pima_head))) =
    [[PyFloats [121 # 24; 4761 # 107; 22 # 21; 64 # 183; 243 # 131;
                128881 # 92820; 78961 # 61575; 2738 # 501]%Q];
     [PyFloats2 [[6; 148; 0; 50]; [1; 85; 0; 31]; [8; 183; 0; 32];
                 [1; 89; 94; 21]; [0; 137; 168; 33]]%Q]] ∧
  (shown <$> stdout (rfe_cell (fresh pima_head))) =
    [[PyStr "Num Features: %d"; PyInt 3];
     [PyStr "Selected Features: %s";
      PyBools [false; true; false; false; true; false; false; true]];
     [PyStr "Feature Ranking: %s"; PyInts [4; 1; 2; 5; 1; 3; 6; 1]%Z]].
Proof. vm_compute. repeat split. Qed.

(** The random state is not pinned by the notebook: the ensemble cell run
    twice in one session draws twice and reports different importances. *)
Example importance_differs_without_seed :
  let s := fresh pima_head in
  stdout (importance_cell s) ≠ stdout (importance_cell (final (importance_cell s))).
Proof. vm_compute. discriminate. Qed.

(** C7, as stated, fails: a run of the four cells on the sample session
    requests the table four times, not once, and the print precision set by
    the univariate cell reaches the report of the projection cell. *)
Lemma dataset_read_once_counterexample :
  let s := fresh pima_head in
  length (run_all s) = 4 ∧
  requests (session_after (run_all s) s) = [url; url; url; url] ∧
  length (requests (session_after (run_all s) s)) ≠ 1 ∧
  stdout (pca_cell s) ≠ stdout (pca_cell (final (univariate_cell s))).
Proof.
repeat split.
- vm_compute. discriminate.
- vm_compute. discriminate.
Qed.

(** C8, as stated, fails: the report of the projection cell holds the
    explained-variance ratios and the component matrix and nothing else, so
    the first 5 rows of the transformed matrix are not in it; and run on a
    fresh interpreter the cell prints at numpy's default precision. *)
Lemma projection_report_counterexample :
  let s := fresh pima_head in
  ∃ d fit T,
    outcome (pca_cell s) = inr (d, fit) ∧
    pca_transform fit (X d) = inr T ∧
    (∀ p, p ∈ stdout (pca_cell s) → PyFloats2 (slice_rows 0 5 T) ∉ shown p) ∧
    Forall (λ p, shown_at p = 8) (stdout (pca_cell s)).
Proof.
intros s.
destruct (outcome (pca_cell s)) as [e | [d fit]] eqn:E; [vm_compute in E; discriminate |].
destruct (pca_transform fit (X d)) as [e | T] eqn:ET.
{ vm_compute in E. injection E as <- <-. vm_compute in ET. discriminate. }
exists d, fit, T. split; [reflexivity |]. split; [exact ET |].
vm_compute in E. injection E as <- <-. vm_compute in ET. injection ET as <-.
split.
- intros p Hp. vm_compute in Hp.
  apply elem_of_cons in Hp as [-> | Hp]; simpl.
  + intros Hin. apply elem_of_cons in Hin as [Hin | Hin]; [discriminate |].
    apply elem_of_cons in Hin as [Hin | Hin]; [discriminate | inv Hin].
  + apply elem_of_cons in Hp as [-> | Hp]; [| inv Hp]. simpl.
    intros Hin. apply elem_of_cons in Hin as [Hin | Hin]; [| inv Hin].
    vm_compute in Hin. discriminate.
- vm_compute. repeat constructor.
Qed.

Lemma projection_ignores_labels_witness :
  let s1 := fresh pima_head in
  let s2 := fresh (relabelled pima_head) in
  let df1 := {| columns := names; values := pima_head |} in
  let df2 := {| columns := names; values := relabelled pima_head |} in
  random_state s1 = random_state s2 ∧
  remote s1 url names = inr df1 ∧
  remote s2 url names = inr df2 ∧
  slice_columns 0 8 (values df1) = slice_columns 0 8 (values df2) ∧
  index_column 8 (values df1) = inr [1; 0; 1; 0; 1]%Q ∧
  index_column 8 (values df2) = inr [0; 1; 0; 1; 0]%Q ∧
  match outcome (pca_cell s1), outcome (pca_cell s2) with
  | inr (_, fit1), inr (_, fit2) =>
      fit1 = fit2 ∧
      components_ fit1 = components_ fit2 ∧
      explained_variance_ratio_ fit1 = explained_variance_ratio_ fit2
  | inl e1, inl e2 => e1 = e2
  | _, _ => False
  end.
Proof.
intros s1 s2 df1 df2.
assert (H1 : random_state s1 = random_state s2) by reflexivity.
assert (H2 : remote s1 url names = inr df1) by reflexivity.
assert (H3 : remote s2 url names = inr df2) by reflexivity.
assert (H4 : slice_columns 0 8 (values df1) = slice_columns 0 8 (values df2))
  by reflexivity.
assert (H5 : index_column 8 (values df1) = inr [1; 0; 1; 0; 1]%Q) by reflexivity.
assert (H6 : index_column 8 (values df2) = inr [0; 1; 0; 1; 0]%Q) by reflexivity.
repeat (split; [assumption |]).
exact (projection_ignores_labels s1 s2 df1 df2 _ _ H1 H2 H3 H4 H5 H6).
Defined.

Lemma sample_X_rectangular : rectangular 8 sample_X.
Proof. repeat constructor. Qed.

Lemma univariate_selector_keeps_k_best_witness :
  sample_X ≠ [] ∧ rectangular 8 sample_X ∧ (1 ≤ 4 ≤ Z.of_nat 8)%Z ∧
  (∀ fit,
     SelectKBest Qle (univariate pearson_chi2) 4 sample_X sample_Y = inr fit →
     length (scores_ fit) = 8 ∧
     ∃ X' positions,
       transform fit sample_X = inr X' ∧
       length X' = length sample_X ∧
       rectangular (Z.to_nat 4) X' ∧
       length positions = Z.to_nat 4 ∧
       StronglySorted lt positions ∧
       (∀ i j, positions !! i = Some j →
               j < 8 ∧ column i X' = column j sample_X) ∧
       (∀ j j' v v',
          j ∈ positions → j' ∉ positions →
          scores_ fit !! j = Some v → scores_ fit !! j' = Some v' → Qle v' v)) ∧
  (Forall (λ col, ∃ v, pearson_chi2 col sample_Y = inr v) (attribute_columns sample_X) →
   ∃ fit, SelectKBest Qle (univariate pearson_chi2) 4 sample_X sample_Y = inr fit).
Proof.
assert (Hne : sample_X ≠ []) by discriminate.
assert (Hk : (1 ≤ 4 ≤ Z.of_nat 8)%Z) by (vm_compute; split; discriminate).
split; [exact Hne |]. split; [exact sample_X_rectangular |]. split; [exact Hk |].
exact (univariate_selector_keeps_k_best Qle pearson_chi2 4 8 sample_X sample_Y
         Hne sample_X_rectangular Hk).
Defined.

(** A negative attribute value: the stand-in statistic raises and the
    selector passes the exception on. *)
Example negative_value_raises :
  SelectKBest Qle (univariate pearson_chi2) 4 [[1; -2]; [3; 4]]%Q [0; 1]%Q
  = inl (Raised "Input X must be non-negative.").
Proof. reflexivity. Qed.

Lemma recursive_elimination_keeps_n_witness :
  sample_X ≠ [] ∧ rectangular 8 sample_X ∧ (1 ≤ 3 ≤ Z.of_nat 8)%Z ∧
  (∀ rs fit rs',
     RFE Qle LogisticRegression 3 sample_X sample_Y rs = (inr fit, rs') →
     length (support_ fit) = 8 ∧
     count_true (support_ fit) = Z.to_nat 3 ∧
     n_features_ fit = 3%Z ∧
     length (ranking_ fit) = 8 ∧
     length (filter (λ r, r = 1%Z) (ranking_ fit)) = Z.to_nat 3 ∧
     (∀ j, ranking_ fit !! j = Some 1%Z ↔ support_ fit !! j = Some true)) ∧
  (one_weight_per_column (LogisticRegression (RandomState := N)) →
   ∀ rs, ∃ fit rs', RFE Qle LogisticRegression 3 sample_X sample_Y rs = (inr fit, rs')).
Proof.
assert (Hne : sample_X ≠ []) by discriminate.
assert (Hn : (1 ≤ 3 ≤ Z.of_nat 8)%Z) by (vm_compute; split; discriminate).
split; [exact Hne |]. split; [exact sample_X_rectangular |]. split; [exact Hn |].
exact (recursive_elimination_keeps_n Qle LogisticRegression 3 8 sample_X sample_Y
         Hne sample_X_rectangular Hn).
Defined.

(** The stand-in for the wrapped model gives one weight per column, and the
    selector run on the sample retains plas, test and age. *)
Lemma class_separation_per_column :
  one_weight_per_column (LogisticRegression (RandomState := N)).
Proof.
intros X Y rs. eexists _, rs. split; [reflexivity |].
unfold attribute_columns. by rewrite !length_fmap, length_seq.
Qed.

Example sample_elimination :
  (RFE Qle LogisticRegression 3 sample_X sample_Y 0%N).1 =
  inr {| n_features_ := 3;
         support_ := [false; true; false; false; true; false; false; true];
         ranking_ := [4; 1; 2; 5; 1; 3; 6; 1]%Z |}.
Proof. vm_compute. reflexivity. Qed.

End SampleRuns.

(** ** More runs on the concrete session *)

Module CoverageRuns.
Import Notebook Sample.

Lemma pima_head_rectangular : rectangular 9 pima_head.
Proof. repeat constructor. Qed.

Lemma load_splits_table_witness :
  let s := fresh pima_head in
  let df := {| columns := names; values := pima_head |} in
  remote s url names = inr df ∧
  rectangular 9 (values df) ∧
  ∃ d, outcome (load_data s) = inr d ∧
       array d = values df ∧
       length (X d) = length (array d) ∧
       rectangular 8 (X d) ∧
       length (Y d) = length (array d) ∧
       recombine (X d) (Y d) = array d.
Proof.
intros s df.
assert (Hserved : remote s url names = inr df) by reflexivity.
split; [exact Hserved |]. split; [exact pima_head_rectangular |].
exact (load_splits_table s df Hserved pima_head_rectangular).
Defined.

(** With a selector that refuses to transform, the univariate cell ends with
    that exception after it has printed the scores and set the precision. *)
Example scores_printed_before_transform_raises :
  let run := univariate_cell (L := Faults.library_refusing_transform) (fresh pima_head) in
  outcome run = inl (Raised "X has a different shape than during fitting.") ∧
  length (stdout run) = 1 ∧
  precision (final run) = 3.
Proof. vm_compute. repeat split. Qed.

(** The univariate cell of a library that refuses to transform, then the
    projection cell: the first ends with an exception after it has set the
    precision, and the second is executed all the same and prints at 3. *)
Lemma precision_only_moves_to_three_witness :
  let cells :=
    [void (univariate_cell (L := Faults.library_refusing_transform));
     void (pca_cell (L := Faults.library_refusing_transform))] in
  let s := fresh pima_head in
  drawn_from_notebook (L := Faults.library_refusing_transform) cells ∧
  length (execute_cells cells s) = length cells ∧
  Forall (λ r, Forall (λ p, shown_at p = precision s ∨ shown_at p = 3) (stdout r))
         (execute_cells cells s) ∧
  (precision (session_after (execute_cells cells s) s) = precision s ∨
   precision (session_after (execute_cells cells s) s) = 3) ∧
  (precision s = 3 →
   Forall (λ r, Forall (λ p, shown_at p = 3) (stdout r)) (execute_cells cells s) ∧
   precision (session_after (execute_cells cells s) s) = 3).
Proof.
intros cells s.
assert (Hcells : drawn_from_notebook (L := Faults.library_refusing_transform) cells).
{ unfold drawn_from_notebook, cells, notebook.
  repeat constructor. }
split; [exact Hcells |].
exact (precision_only_moves_to_three (L := Faults.library_refusing_transform)
         cells s Hcells).
Defined.

(** The same two cells, evaluated: a run of the notebook stops after the
    first, execution by hand goes on, and the projection cell prints its two
    lines at precision 3. *)
Example execution_goes_on_after_an_exception :
  let cells :=
    [void (univariate_cell (L := Faults.library_refusing_transform));
     void (pca_cell (L := Faults.library_refusing_transform))] in
  let s := fresh pima_head in
  length (run_cells cells s) = 1 ∧
  (λ r, (outcome r, shown_at <$> stdout r)) <$> execute_cells cells s =
    [(inl (Raised "X has a different shape than during fitting."), [3]);
     (inr (), [3; 3])].
Proof. vm_compute. repeat split. Qed.

(** Three cells on a table of three columns: each one ends with IndexError at
    the label index, each one is executed, and each one has requested the
    table. *)
Lemma every_execution_requests_the_table_witness :
  let cells := [void pca_cell; void rfe_cell; void pca_cell] in
  let s := fresh [[1; 2; 3]%Q] in
  drawn_from_notebook cells ∧
  length (execute_cells cells s) = length cells ∧
  requests (session_after (execute_cells cells s) s) =
    requests s ++ replicate (length cells) url ∧
  ∀ i r, execute_cells cells s !! i = Some r →
         requests (final r) = requests s ++ replicate (S i) url.
Proof.
intros cells s.
assert (Hcells : drawn_from_notebook cells).
{ unfold drawn_from_notebook, cells, notebook.
  repeat constructor. }
split; [exact Hcells |].
exact (every_execution_requests_the_table cells s Hcells).
Defined.

Example narrow_table_is_requested_three_times :
  let cells := [void pca_cell; void rfe_cell; void pca_cell] in
  let s := fresh [[1; 2; 3]%Q] in
  outcome <$> execute_cells cells s = [inl IndexError; inl IndexError; inl IndexError] ∧
  length (requests (session_after (execute_cells cells s) s)) = 3 ∧
  length (run_cells cells s) = 1.
Proof. vm_compute. repeat split. Qed.

End CoverageRuns.
